(** * The agentic cybersecurity pipeline: plan, execute one job, branch, stop

    A shallow embedding of [agentic_cybersec_pipeline.py]: the planner
    [plan_jobs], the one-job executor step [perform_task], the routing
    function [determine_next] and the two-node graph that [run] invokes,
    followed by the properties of the scheduler.

    Python strings are modelled as [string] (a sequence of bytes, the
    UTF-8 encoding of the text); dictionaries with a fixed set of keys
    as records; the scope dictionary as a [gmap]; exceptions as an
    explicit [outcome]. *)

From Stdlib Require Import Ascii String.
From stdpp Require Import base option list strings pretty gmap.

Local Open Scope nat_scope.

(** ** Python strings *)

Module Py.

Definition chr (n : nat) : ascii := Ascii.ascii_of_nat n.

Definition squote : ascii := chr 39.
Definition dquote : ascii := chr 34.
Definition backslash : ascii := chr 92.
Definition newline : string := String (chr 10) EmptyString.

(** [c.lower()] on the ASCII range; the other bytes are left alone.
    The keywords the planner looks for are plain ASCII letters, and the
    two code points outside ASCII whose lowercase contains an ASCII
    letter produce "k" or an "i" followed by a combining mark, which
    completes none of them. *)
Definition lower_ascii (c : ascii) : ascii :=
  let n := Ascii.nat_of_ascii c in
  if (65 <=? n) && (n <=? 90) then chr (n + 32) else c.

(** [s.lower()] *)
Fixpoint lower (s : string) : string :=
  match s with
  | EmptyString => EmptyString
  | String c s' => String (lower_ascii c) (lower s')
  end.

(** [sub in s]: [sub] occurs in [s] as a contiguous substring. *)
Fixpoint contains (sub s : string) : bool :=
  String.prefix sub s ||
  match s with
  | EmptyString => false
  | String _ s' => contains sub s'
  end.

(** [c in s] for a single character. *)
Fixpoint has_char (c : ascii) (s : string) : bool :=
  match s with
  | EmptyString => false
  | String d s' => Ascii.eqb c d || has_char c s'
  end.

(** [sep.join(parts)] *)
Definition join (sep : string) (parts : list string) : string :=
  String.concat sep parts.

Definition hex_digit (n : nat) : ascii :=
  if n <? 10 then chr (48 + n) else chr (87 + n).

(** One character of [repr(s)], [q] being the quote that encloses it. *)
Definition repr_char (q c : ascii) : string :=
  let n := Ascii.nat_of_ascii c in
  if Ascii.eqb c q || Ascii.eqb c backslash then String backslash (String c EmptyString)
  else if n =? 9 then String backslash "t"
  else if n =? 10 then String backslash "n"
  else if n =? 13 then String backslash "r"
  else if (n <? 32) || (n =? 127) then
    String backslash
      (String "x" (String (hex_digit (n / 16)) (String (hex_digit (n mod 16)) EmptyString)))
  else String c EmptyString.

Fixpoint repr_body (q : ascii) (s : string) : string :=
  match s with
  | EmptyString => EmptyString
  | String c s' => repr_char q c +:+ repr_body q s'
  end.

(** [repr(s)] of a string: single quotes, unless the text holds a
    single quote and no double quote; bytes from 128 up (the encoding
    of printable text outside ASCII) are kept as they are. *)
Definition repr (s : string) : string :=
  let q := if has_char squote s && negb (has_char dquote s) then dquote else squote in
  String q (repr_body q s +:+ String q EmptyString).

(** The exceptions this program can see, each with the arguments
    that decide [str(e)]. All are subclasses of [Exception]. *)
Inductive exn : Type :=
| KeyError (key : string)
| IndexError (msg : string)
| ValueError (msg : string)
| RuntimeError (msg : string)
| GraphRecursionError (msg : string).

(** [str(e)]: a [KeyError] shows the repr of its key, the others
    their message. *)
Definition str_exn (e : exn) : string :=
  match e with
  | KeyError k => repr k
  | IndexError m | ValueError m | RuntimeError m | GraphRecursionError m => m
  end.

(** A call either returns a value or raises. *)
Inductive outcome (A : Type) : Type :=
| Return (a : A)
| Raise (e : exn).
Global Arguments Return {A} a.
Global Arguments Raise {A} e.

Definition bind {A B} (m : outcome A) (k : A -> outcome B) : outcome B :=
  match m with
  | Return a => k a
  | Raise e => Raise e
  end.

Definition omap {A B} (f : A -> B) (m : outcome A) : outcome B :=
  bind m (fun a => Return (f a)).

(** [d[key]] on a dictionary *)
Definition getitem {V} (d : gmap string V) (key : string) : outcome V :=
  match d !! key with
  | Some v => Return v
  | None => Raise (KeyError key)
  end.

(** [l[i]] on a list, for an index from 0 up *)
Definition index {A} (l : list A) (i : nat) : outcome A :=
  match l !! i with
  | Some a => Return a
  | None => Raise (IndexError "list index out of range")
  end.

End Py.

Import Py.

#[global] Instance outcome_ret : MRet outcome := @Return.
#[global] Instance outcome_bind : MBind outcome := fun A B k m => Py.bind m k.

(** [try: body / except Exception as e: handler(e)] *)
Definition try_except {A} (body : outcome A) (handler : exn -> outcome A) : outcome A :=
  match body with
  | Return a => Return a
  | Raise e => handler e
  end.

(** ** The data model *)

(** A job: the dictionary with the keys "utility", "target" and
    "parameters", inserted in this order. *)
Record Job : Type := mkJob {
  utility : string;
  target : string;
  parameters : string
}.

#[global] Instance Job_eq_dec : EqDecision Job.
Proof. solve_decision. Defined.

(** [class CyberAuditData(TypedDict)] *)
Record CyberAuditData : Type := mkData {
  directive : string;
  job_queue : list Job;
  activity_logs : list string;
  assessment_scope : gmap string (list string)
}.

Definition with_job_queue (q : list Job) (data : CyberAuditData) : CyberAuditData :=
  mkData (directive data) q (activity_logs data) (assessment_scope data).

Definition with_activity_logs (l : list string) (data : CyberAuditData) : CyberAuditData :=
  mkData (directive data) (job_queue data) l (assessment_scope data).

(** [repr] of a job dictionary, as an f-string shows it. *)
Definition repr_job (job : Job) : string :=
  "{'utility': " +:+ Py.repr (utility job) +:+
  ", 'target': " +:+ Py.repr (target job) +:+
  ", 'parameters': " +:+ Py.repr (parameters job) +:+ "}".

Definition nmap_parameters : string := "-Pn -p 80,443,22,8080".
Definition gobuster_parameters : string :=
  "dir -u http://{target} -w /usr/share/wordlists/dirb/common.txt".

Definition nmap_job (t : string) : Job := mkJob "nmap" t nmap_parameters.
Definition gobuster_job (t : string) : Job := mkJob "gobuster" t gobuster_parameters.

(** ** The simulated utilities *)

Definition simulate_nmap_scan (target : string) : string :=
  Py.join Py.newline
    [ "Starting Nmap scan on " +:+ target +:+ "...";
      "Scanning ports: 80, 443, 22, 8080";
      "Discovered open ports:";
      "80/tcp  - HTTP";
      "443/tcp - HTTPS";
      "22/tcp  - SSH";
      "8080/tcp - HTTP-Alt";
      "Nmap scan completed." ].

Definition simulate_gobuster_scan (target : string) : string :=
  Py.join Py.newline
    [ "Starting Gobuster scan on " +:+ target +:+ "...";
      "Found directories:";
      "/admin";
      "/login";
      "/images";
      "/assets";
      "Gobuster scan completed." ].

(** [run_utility]. The built-in [str.format], called as
    [template.format(target=target)], is the parameter [format]. *)
Definition run_utility (format : string -> string -> outcome string) (job : Job)
  : outcome string :=
  let utility := utility job in
  let target := target job in
  parameters ← format (parameters job) target;
  if String.eqb utility "nmap" then mret (simulate_nmap_scan target)
  else if String.eqb utility "gobuster" then mret (simulate_gobuster_scan target)
  else mret ("Simulated output for " +:+ utility +:+ " on " +:+ target +:+
             " with parameters " +:+ parameters).

(** ** The agent *)

(** The two conditions of the planner on the directive. *)
Definition wants_port_scan (directive : string) : bool :=
  Py.contains "scan" (Py.lower directive) && Py.contains "ports" (Py.lower directive).

Definition wants_directories (directive : string) : bool :=
  Py.contains "discover directories" (Py.lower directive).

(** [self]: the scope given to the constructor, and the method
    [run_utility] that [perform_task] calls through [self]. *)
Record CyberSecurityAgent : Type := mkAgent {
  self_assessment_scope : gmap string (list string);
  self_run_utility : Job -> outcome string
}.

Inductive node : Type := initiate | process | complete.

#[global] Instance node_eq_dec : EqDecision node.
Proof. solve_decision. Defined.

Section Agent.

Variable self : CyberSecurityAgent.

(** [determine_next]: "process" while jobs remain, else "complete". *)
Definition determine_next (data : CyberAuditData) : node :=
  match job_queue data with
  | [] => complete
  | _ :: _ => process
  end.

(** [self.assessment_scope["domains"][0]] *)
Definition first_domain : outcome string :=
  domains ← Py.getitem (self_assessment_scope self) "domains";
  Py.index domains 0.

(** [plan_jobs]: jobs are planned only into an empty queue. *)
Definition plan_jobs (data : CyberAuditData) : outcome CyberAuditData :=
  match job_queue data with
  | [] =>
      let directive := directive data in
      data ←
        (if wants_port_scan directive
         then t ← first_domain;
              mret (with_job_queue (job_queue data ++ [nmap_job t]) data)
         else mret data);
      data ←
        (if wants_directories directive
         then t ← first_domain;
              mret (with_job_queue (job_queue data ++ [gobuster_job t]) data)
         else mret data);
      mret data
  | _ :: _ => mret data
  end.

(** The log entry written by the [except] branch. *)
Definition failure_entry (current_task : Job) (e : exn) : string :=
  "Task failed: " +:+ repr_job current_task +:+ " - " +:+ Py.str_exn e.

(** [perform_task]: pop the front job, run it, log, branch. *)
Definition perform_task (data : CyberAuditData) : outcome CyberAuditData :=
  match job_queue data with
  | current_task :: rest =>
      let data := with_job_queue rest data in
      try_except
        (output ← self_run_utility self current_task;
         let data := with_activity_logs (activity_logs data ++ [output]) data in
         if String.eqb (utility current_task) "nmap" then
           if Py.contains "80/tcp" output || Py.contains "443/tcp" output then
             mret (with_job_queue
                     (job_queue data ++ [gobuster_job (target current_task)]) data)
           else mret data
         else mret data)
        (fun e =>
           mret (with_activity_logs
                   (activity_logs data ++ [failure_entry current_task e]) data))
  | [] => mret data
  end.

(** The compiled graph: entry point "initiate"; after "initiate" and
    after "process" the conditional edge [determine_next] picks the
    next node; "complete" hands the data back and has no edge out, so
    the walk ends there. [node_step] runs one node and follows its
    edge. *)
Definition node_step (n : node) (data : CyberAuditData)
  : outcome (option (node * CyberAuditData)) :=
  match n with
  | initiate => data' ← plan_jobs data; mret (Some (determine_next data', data'))
  | process => data' ← perform_task data; mret (Some (determine_next data', data'))
  | complete => mret None
  end.

(** [invoke]: each node run is one step, and the graph runtime raises
    once [fuel] steps have not reached the end. *)
Fixpoint invoke_from (fuel : nat) (n : node) (data : CyberAuditData)
  : outcome CyberAuditData :=
  match fuel with
  | 0 => Raise (GraphRecursionError "Recursion limit reached without hitting a stop condition")
  | S fuel' =>
      next ← node_step n data;
      match next with
      | Some (n', data') => invoke_from fuel' n' data'
      | None => mret data
      end
  end.

(** The job a node pops when it runs: the front of the queue, for
    "process" only. *)
Definition popped (n : node) (data : CyberAuditData) : list Job :=
  match n with
  | process => take 1 (job_queue data)
  | initiate | complete => []
  end.

(** The jobs popped along the same walk, in the order they are
    popped. *)
Fixpoint executed_from (fuel : nat) (n : node) (data : CyberAuditData) : list Job :=
  match fuel with
  | 0 => []
  | S fuel' =>
      match node_step n data with
      | Return (Some (n', data')) => popped n data ++ executed_from fuel' n' data'
      | Return None | Raise _ => []
      end
  end.

(** The default step limit of the graph runtime. *)
Definition recursion_limit : nat := 25.

Definition initial_data (directive : string) : CyberAuditData :=
  mkData directive [] [] (self_assessment_scope self).

(** [run] *)
Definition run (directive : string) : outcome CyberAuditData :=
  invoke_from recursion_limit initiate (initial_data directive).

Definition executed (directive : string) : list Job :=
  executed_from recursion_limit initiate (initial_data directive).

(** The entry that running [job] leaves in the log. *)
Definition log_entry (job : Job) : string :=
  match self_run_utility self job with
  | Return output => output
  | Raise e => failure_entry job e
  end.

(** The jobs that running [job] puts at the back of the queue. *)
Definition follow_on (job : Job) : list Job :=
  match self_run_utility self job with
  | Return output =>
      if String.eqb (utility job) "nmap"
         && (Py.contains "80/tcp" output || Py.contains "443/tcp" output)
      then [gobuster_job (target job)]
      else []
  | Raise _ => []
  end.

(** The data after [perform_task] has run the front job [job]. *)
Definition after_job (data : CyberAuditData) (job : Job) (rest : list Job)
  : CyberAuditData :=
  mkData (directive data) (rest ++ follow_on job)
    (activity_logs data ++ [log_entry job]) (assessment_scope data).

(** The states a run goes through: the initial data at "initiate", and
    whatever a node run leads to. *)
Inductive reachable (d : string) : node → CyberAuditData → Prop :=
| reachable_entry :
    reachable d initiate (initial_data d)
| reachable_step (n n' : node) (data data' : CyberAuditData) :
    reachable d n data →
    node_step n data = Return (Some (n', data')) →
    reachable d n' data'.

(** [self.assessment_scope["domains"]], empty when the key is absent
    (no job can then be planned at all). *)
Definition scope_domains : list string :=
  default [] (self_assessment_scope self !! "domains").

Definition in_scope (job : Job) : Prop :=
  target job ∈ scope_domains.

End Agent.

(** A [str.format] for templates whose replacement fields are plain
    names, the instance of [format] the theorems are exercised at:
    doubled braces stand for one brace, a field named "target" is
    replaced, an empty field is a missing positional argument, another
    name a missing key, and a brace left alone is an error. Fields that
    carry an index, a conversion, a format spec or a lookup are not
    covered. [field_name] reads a field up to its closing brace. *)
Fixpoint field_name (s : string) : option (string * string) :=
  match s with
  | EmptyString => None
  | String c s' =>
      if Ascii.eqb c "}" then Some (EmptyString, s')
      else '(name, rest) ← field_name s'; Some (String c name, rest)
  end.

Fixpoint plain_format_fuel (fuel : nat) (template target : string) : outcome string :=
  match fuel with
  | 0 => mret EmptyString
  | S fuel' =>
      match template with
      | EmptyString => mret EmptyString
      | String c rest =>
          if Ascii.eqb c "{" then
            match rest with
            | EmptyString => Raise (ValueError "Single '{' encountered in format string")
            | String d rest' =>
                if Ascii.eqb d "{" then
                  out ← plain_format_fuel fuel' rest' target; mret (String "{" out)
                else
                  match field_name rest with
                  | None => Raise (ValueError "expected '}' before end of string")
                  | Some (name, after) =>
                      if String.eqb name "target" then
                        out ← plain_format_fuel fuel' after target; mret (target +:+ out)
                      else if String.eqb name "" then
                        Raise (IndexError
                          "Replacement index 0 out of range for positional args tuple")
                      else Raise (KeyError name)
                  end
            end
          else if Ascii.eqb c "}" then
            match rest with
            | String "}" rest' =>
                out ← plain_format_fuel fuel' rest' target; mret (String "}" out)
            | _ => Raise (ValueError "Single '}' encountered in format string")
            end
          else out ← plain_format_fuel fuel' rest target; mret (String c out)
      end
  end.

Definition plain_format (template target : string) : outcome string :=
  plain_format_fuel (String.length template) template target.

(** The agent of the program: the simulated utilities behind
    [run_utility]. *)
Definition simulated_agent (scope : gmap string (list string)) : CyberSecurityAgent :=
  mkAgent scope (run_utility plain_format).

Definition example_scope : gmap string (list string) :=
  {[ "domains" := ["example.com"]; "ips" := ["192.168.1.0/24"] ]}.

(** The planned queue, given the first domain [d]. *)
Definition planned (directive d : string) : list Job :=
  (if wants_port_scan directive then [nmap_job d] else []) ++
  (if wants_directories directive then [gobuster_job d] else []).

(** What a job costs the walk: itself, and for an nmap job the one
    job it may add. *)
Definition cost (job : Job) : nat :=
  if String.eqb (utility job) "nmap" then 2 else 1.

Definition weight (queue : list Job) : nat := sum_list_with cost queue.

Definition is_nmap (job : Job) : Prop := utility job = "nmap".

#[global] Instance is_nmap_dec (job : Job) : Decision (is_nmap job).
Proof. unfold is_nmap. apply _. Defined.

(** ** The order of execution *)

(** The jobs that running the jobs of [queue], one after the other,
    puts at the back. *)
Definition follow_ons (self : CyberSecurityAgent) (queue : list Job) : list Job :=
  concat (follow_on self <$> queue).

(** First the queued jobs in queue order, then the jobs they add. *)
Definition schedule (self : CyberSecurityAgent) (queue : list Job) : list Job :=
  queue ++ follow_ons self queue.

(** [format] fills the two templates of the program as [str.format]
    does: the nmap template has no field, the gobuster template has the
    one field "target". *)
Definition fills_templates (format : string → string → outcome string) : Prop :=
  ∀ t,
    format nmap_parameters t = Return "-Pn -p 80,443,22,8080" ∧
    format gobuster_parameters t
    = Return ("dir -u http://" +:+ t +:+ " -w /usr/share/wordlists/dirb/common.txt").

(** The reports a run collects from the simulated utilities on the
    target [t]. *)
Definition simulated_reports (directive t : string) : list string :=
  (if wants_port_scan directive then [simulate_nmap_scan t] else []) ++
  (if wants_directories directive then [simulate_gobuster_scan t] else []) ++
  (if wants_port_scan directive then [simulate_gobuster_scan t] else []).

(** ** The form *)

(** A call [st.text_area(label, value, height=..., key=...)]. *)
Record text_area : Type := mkTextArea {
  label : string;
  value : string;
  height : nat;
  key : string
}.

(** [{"domains": [domain_input], "ips": [ip_range_input]}] *)
Definition form_scope (domain_input ip_range_input : string) : gmap string (list string) :=
  {[ "domains" := [domain_input]; "ips" := [ip_range_input] ]}.

(** The directive the button sends. *)
Definition form_directive (domain_input : string) : string :=
  "Scan " +:+ domain_input +:+ " for open ports and discover directories".

(** The loop over [enumerate(final_result["activity_logs"])]. *)
Definition show_logs (activity_logs : list string) : list text_area :=
  imap (λ index log_entry,
          mkTextArea ("Log " +:+ pretty (index + 1)) log_entry 200 ("log_" +:+ pretty index))
       activity_logs.

(** The body of the button: build the scope, run the agent, show the
    logs. *)
Definition initiate_security_audit (format : string → string → outcome string)
    (domain_input ip_range_input : string) : outcome (list text_area) :=
  let assessment_scope := form_scope domain_input ip_range_input in
  let security_agent := mkAgent assessment_scope (run_utility format) in
  final_result ← run security_agent (form_directive domain_input);
  mret (show_logs (activity_logs final_result)).

(** An executor that fails on every job. *)
Definition failing_utility (e : exn) (job : Job) : outcome string := Raise e.

(** ** Scopes, jobs and states used as examples *)

Definition no_domains_scope : gmap string (list string) :=
  {[ "domains" := []; "ips" := ["192.168.1.0/24"] ]}.

(** A job whose template names a key that [format] is not given. *)
Definition broken_job : Job := mkJob "nmap" "example.com" "-p {port}".

Definition failing_data : CyberAuditData :=
  mkData "scan" [broken_job; gobuster_job "example.com"] ["earlier"] example_scope.

Definition scenario_directive : string :=
  "Scan example.com for open ports and discover directories".

Definition scenario_scope : gmap string (list string) :=
  {[ "domains" := ["example.com"] ]}.

Definition scenario_final : CyberAuditData :=
  mkData scenario_directive []
    [ simulate_nmap_scan "example.com";
      simulate_gobuster_scan "example.com";
      simulate_gobuster_scan "example.com" ]
    scenario_scope.

Definition scenario_agent (format : string → string → outcome string) : CyberSecurityAgent :=
  mkAgent scenario_scope (run_utility format).

Definition scenario_planned : CyberAuditData :=
  mkData scenario_directive [nmap_job "example.com"; gobuster_job "example.com"] []
    scenario_scope.

Definition scenario_scanned : CyberAuditData :=
  mkData scenario_directive [gobuster_job "example.com"; gobuster_job "example.com"]
    [simulate_nmap_scan "example.com"] scenario_scope.

(** A queue with a job of each kind. *)
Definition mixed_queue : list Job :=
  [gobuster_job "a.example"; nmap_job "b.example"; mkJob "whois" "c.example" "{target}"].

(** * Properties *)

(** ** Strings: what [contains] and [lower] compute *)

Lemma prefix_app (sub s : string) :
  String.prefix sub s = true ↔ ∃ b, s = sub +:+ b.
Proof.
  revert s. induction sub as [|c sub IH]; intros s; simpl.
  - split; [intros _; by exists s | by destruct s].
  - destruct s as [|d s]; simpl.
    + split; [done | by intros [b ?]].
    + destruct (Ascii.ascii_dec c d) as [->|Hne].
      * rewrite IH. split; intros [b Hb]; exists b; [by rewrite Hb | by injection Hb].
      * split; [done | intros [b Hb]; inversion Hb; congruence].
Qed.

(** [contains sub s] holds exactly when [s] splits around [sub]. *)
Lemma contains_spec (sub s : string) :
  Py.contains sub s = true ↔ ∃ a b, s = a +:+ sub +:+ b.
Proof.
  induction s as [|c s IH]; cbn [Py.contains].
  - rewrite orb_false_r, prefix_app. split.
    + intros [b Hb]. by exists EmptyString, b.
    + intros [[|? a] [b Hb]]; [by exists b | inversion Hb].
  - rewrite orb_true_iff, prefix_app, IH. split.
    + intros [[b Hb] | (a & b & Hab)].
      * by exists EmptyString, b.
      * exists (String c a), b. by rewrite Hab.
    + intros [[|d a] [b Hb]].
      * left. by exists b.
      * right. exists a, b. by inversion Hb.
Qed.

Lemma lower_ascii_idemp (c : ascii) : Py.lower_ascii (Py.lower_ascii c) = Py.lower_ascii c.
Proof.
  destruct c as [[] [] [] [] [] [] [] []]; reflexivity.
Qed.

Lemma lower_idemp (s : string) : Py.lower (Py.lower s) = Py.lower s.
Proof.
  induction s as [|c s IH]; simpl; [done|]. by rewrite lower_ascii_idemp, IH.
Qed.

Lemma lower_length (s : string) : String.length (Py.lower s) = String.length s.
Proof. induction s as [|c s IH]; simpl; congruence. Qed.

(** ** The simulated utilities on the jobs of the program *)

Lemma plain_format_nmap (t : string) :
  plain_format nmap_parameters t = Return "-Pn -p 80,443,22,8080".
Proof. reflexivity. Qed.

Lemma plain_format_gobuster (t : string) :
  plain_format gobuster_parameters t
  = Return ("dir -u http://" +:+ t +:+ " -w /usr/share/wordlists/dirb/common.txt").
Proof. reflexivity. Qed.

(** On the jobs that planning and branching create, the simulated
    utilities return their fixed report and never raise. *)
Lemma simulated_jobs_succeed (t : string) :
  run_utility plain_format (nmap_job t) = Return (simulate_nmap_scan t) ∧
  run_utility plain_format (gobuster_job t) = Return (simulate_gobuster_scan t).
Proof.
  unfold run_utility. cbn [nmap_job gobuster_job parameters target utility].
  by rewrite plain_format_nmap, plain_format_gobuster.
Qed.

(** ** One step of each node *)

Section Steps.

Variable self : CyberSecurityAgent.

Lemma perform_task_cons (data : CyberAuditData) (current_task : Job) (rest : list Job) :
  job_queue data = current_task :: rest →
  perform_task self data =
    Return (mkData (directive data) (rest ++ follow_on self current_task)
              (activity_logs data ++ [log_entry self current_task]) (assessment_scope data)).
Proof.
  intros Hq. unfold perform_task, follow_on, log_entry. rewrite Hq.
  destruct (self_run_utility self current_task) as [output|e]; simpl.
  - destruct (String.eqb (utility current_task) "nmap"); simpl.
    + destruct (Py.contains "80/tcp" output || Py.contains "443/tcp" output); simpl;
        [done | by rewrite app_nil_r].
    + by rewrite app_nil_r.
  - by rewrite app_nil_r.
Qed.

Lemma perform_task_nil (data : CyberAuditData) :
  job_queue data = [] → perform_task self data = Return data.
Proof. intros Hq. unfold perform_task. by rewrite Hq. Qed.

Lemma first_domain_cons (d : string) (ds : list string) :
  self_assessment_scope self !! "domains" = Some (d :: ds) →
  first_domain self = Return d.
Proof. intros H. unfold first_domain, Py.getitem. by rewrite H. Qed.

Lemma first_domain_nil :
  self_assessment_scope self !! "domains" = Some [] →
  first_domain self = Raise (IndexError "list index out of range").
Proof. intros H. unfold first_domain, Py.getitem. by rewrite H. Qed.

Lemma first_domain_missing :
  self_assessment_scope self !! "domains" = None →
  first_domain self = Raise (KeyError "domains").
Proof. intros H. unfold first_domain, Py.getitem. by rewrite H. Qed.

Lemma plan_jobs_busy (data : CyberAuditData) :
  job_queue data ≠ [] → plan_jobs self data = Return data.
Proof. unfold plan_jobs. by destruct (job_queue data). Qed.

(** Planning into an empty queue: the outcome of [first_domain]
    decides everything once a rule fires. *)
Lemma plan_jobs_empty (data : CyberAuditData) :
  job_queue data = [] →
  plan_jobs self data =
    if wants_port_scan (directive data) || wants_directories (directive data)
    then d ← first_domain self; mret (with_job_queue (planned (directive data) d) data)
    else mret data.
Proof.
  intros Hq. unfold plan_jobs, planned. rewrite Hq.
  destruct (wants_port_scan (directive data)), (wants_directories (directive data));
    simpl; try done;
    destruct (first_domain self) as [d|e]; simpl; try done;
    unfold with_job_queue; simpl; by rewrite ?Hq.
Qed.

(** The walk through the graph, one node at a time. *)
Lemma invoke_from_S (fuel : nat) (n : node) (data : CyberAuditData) :
  invoke_from self (S fuel) n data =
    match n with
    | initiate =>
        data' ← plan_jobs self data; invoke_from self fuel (determine_next data') data'
    | process =>
        data' ← perform_task self data; invoke_from self fuel (determine_next data') data'
    | complete => mret data
    end.
Proof.
  cbn [invoke_from]. destruct n; cbn [node_step]; [| |done].
  - by destruct (plan_jobs self data).
  - by destruct (perform_task self data).
Qed.

Lemma executed_from_S (fuel : nat) (n : node) (data : CyberAuditData) :
  executed_from self (S fuel) n data =
    match n with
    | initiate =>
        match plan_jobs self data with
        | Return data' => executed_from self fuel (determine_next data') data'
        | Raise _ => []
        end
    | process =>
        match perform_task self data with
        | Return data' =>
            take 1 (job_queue data) ++ executed_from self fuel (determine_next data') data'
        | Raise _ => []
        end
    | complete => []
    end.
Proof.
  cbn [executed_from]. destruct n; cbn [node_step popped]; [| |done].
  - by destruct (plan_jobs self data).
  - by destruct (perform_task self data).
Qed.

Lemma run_unfold (d : string) :
  run self d =
    data' ← plan_jobs self (initial_data self d);
    invoke_from self 24 (determine_next data') data'.
Proof. unfold run. change recursion_limit with (S 24). by rewrite invoke_from_S. Qed.

Lemma executed_unfold (d : string) :
  executed self d =
    match plan_jobs self (initial_data self d) with
    | Return data' => executed_from self 24 (determine_next data') data'
    | Raise _ => []
    end.
Proof. unfold executed. change recursion_limit with (S 24). by rewrite executed_from_S. Qed.

End Steps.

(** ** Planning without a first domain *)

(** C1, as stated, fails: with the directive "scan ports" the port-scan
    rule fires, the scope has an empty "domains" list, and [plan_jobs]
    does not return: no state comes back from it. *)
Lemma C1_counterexample :
  wants_port_scan "scan ports" = true ∧
  self_assessment_scope (simulated_agent no_domains_scope) !! "domains" = Some [] ∧
  ¬ ∃ data',
      plan_jobs (simulated_agent no_domains_scope)
        (initial_data (simulated_agent no_domains_scope) "scan ports") = Return data'.
Proof.
  split; [reflexivity|]. split; [reflexivity|].
  intros [data' H]. vm_compute in H. discriminate H.
Qed.

(** C1, amended: when a rule that needs a target fires and the scope's
    "domains" list is empty, [plan_jobs] on an empty queue raises
    [IndexError] (list index out of range) instead of returning; no job
    comes out of it, and the error leaves [run] unhandled. *)
Theorem C1_empty_domains_raise (self : CyberSecurityAgent) (d : string) :
  wants_port_scan d || wants_directories d = true →
  self_assessment_scope self !! "domains" = Some [] →
  (∀ data, job_queue data = [] → directive data = d →
     plan_jobs self data = Raise (IndexError "list index out of range")) ∧
  run self d = Raise (IndexError "list index out of range").
Proof.
  intros Hfire Hdom.
  assert (Hplan : ∀ data, job_queue data = [] → directive data = d →
            plan_jobs self data = Raise (IndexError "list index out of range")).
  { intros data Hq Hd. rewrite (plan_jobs_empty self data Hq), Hd, Hfire.
    by rewrite (first_domain_nil self Hdom). }
  split; [exact Hplan|].
  by rewrite run_unfold, (Hplan (initial_data self d)).
Qed.

Lemma C1_empty_domains_raise_witness :
  (∀ data, job_queue data = [] → directive data = "Scan ports and discover directories" →
     plan_jobs (simulated_agent no_domains_scope) data
     = Raise (IndexError "list index out of range")) ∧
  run (simulated_agent no_domains_scope) "Scan ports and discover directories"
  = Raise (IndexError "list index out of range").
Proof.
  apply (C1_empty_domains_raise (simulated_agent no_domains_scope)
           "Scan ports and discover directories"); reflexivity.
Defined.

(** ** Branching after a job *)

(** C2: when the front job runs, the queue that is left is the rest of
    the queue followed by the follow-on jobs: exactly one gobuster job on
    the same target when the job was an nmap job whose output holds
    "80/tcp" or "443/tcp" (one job also when it holds both), and nothing
    when the output holds neither or the utility is not nmap. *)
Theorem C2_branch_once (self : CyberSecurityAgent) (data : CyberAuditData)
    (current_task : Job) (rest : list Job) :
  job_queue data = current_task :: rest →
  ∃ data',
    perform_task self data = Return data' ∧
    (∀ output,
       utility current_task = "nmap" →
       self_run_utility self current_task = Return output →
       Py.contains "80/tcp" output = true ∨ Py.contains "443/tcp" output = true →
       job_queue data' = rest ++ [gobuster_job (target current_task)]) ∧
    (∀ output,
       self_run_utility self current_task = Return output →
       Py.contains "80/tcp" output = false →
       Py.contains "443/tcp" output = false →
       job_queue data' = rest) ∧
    (utility current_task ≠ "nmap" → job_queue data' = rest).
Proof.
  intros Hq. eexists. split; [by apply perform_task_cons|]. cbn [job_queue].
  unfold follow_on. split; [|split].
  - intros output Hu Hrun Hport. rewrite Hrun, Hu. cbn [String.eqb Ascii.eqb Bool.eqb].
    replace (Py.contains "80/tcp" output || Py.contains "443/tcp" output) with true; [done|].
    symmetry. apply orb_true_iff. destruct Hport; auto.
  - intros output Hrun H80 H443. rewrite Hrun, H80, H443, andb_false_r. apply app_nil_r.
  - intros Hu. apply String.eqb_neq in Hu. rewrite Hu.
    destruct (self_run_utility self current_task); apply app_nil_r.
Qed.

Lemma C2_branch_once_witness :
  ∃ data',
    perform_task (simulated_agent example_scope)
      (mkData "scan ports" [nmap_job "example.com"; gobuster_job "example.com"] [] example_scope)
    = Return data' ∧
    (∀ output,
       utility (nmap_job "example.com") = "nmap" →
       self_run_utility (simulated_agent example_scope) (nmap_job "example.com") = Return output →
       Py.contains "80/tcp" output = true ∨ Py.contains "443/tcp" output = true →
       job_queue data' = [gobuster_job "example.com"] ++ [gobuster_job (target (nmap_job "example.com"))]) ∧
    (∀ output,
       self_run_utility (simulated_agent example_scope) (nmap_job "example.com") = Return output →
       Py.contains "80/tcp" output = false →
       Py.contains "443/tcp" output = false →
       job_queue data' = [gobuster_job "example.com"]) ∧
    (utility (nmap_job "example.com") ≠ "nmap" → job_queue data' = [gobuster_job "example.com"]).
Proof.
  apply (C2_branch_once (simulated_agent example_scope)
           (mkData "scan ports" [nmap_job "example.com"; gobuster_job "example.com"] []
              example_scope)
           (nmap_job "example.com") [gobuster_job "example.com"]).
  reflexivity.
Defined.

(** ** A job that fails *)

(** C3: when the utility raises on the front job, [perform_task] still
    returns; the log gains the one entry "Task failed: <job> - <reason>",
    the queue is the rest of the queue with nothing added, and the walk
    goes on with [determine_next] on that state: to "process" when a job
    is left, which then pops the next one. *)
Theorem C3_failure_is_logged (self : CyberSecurityAgent) (data : CyberAuditData)
    (current_task : Job) (rest : list Job) (e : exn) :
  job_queue data = current_task :: rest →
  self_run_utility self current_task = Raise e →
  ∃ data',
    perform_task self data = Return data' ∧
    activity_logs data' =
      activity_logs data ++
      ["Task failed: " +:+ repr_job current_task +:+ " - " +:+ Py.str_exn e] ∧
    job_queue data' = rest ∧
    determine_next data' = (if decide (rest = []) then complete else process) ∧
    (∀ fuel,
       invoke_from self (S fuel) process data
       = invoke_from self fuel (determine_next data') data' ∧
       executed_from self (S fuel) process data
       = current_task :: executed_from self fuel (determine_next data') data') ∧
    (∀ next rest' fuel,
       rest = next :: rest' →
       ∃ later, executed_from self (S (S fuel)) process data = current_task :: next :: later).
Proof.
  intros Hq Hrun.
  pose proof (perform_task_cons self data current_task rest Hq) as Hstep.
  unfold follow_on, log_entry in Hstep. rewrite Hrun, app_nil_r in Hstep.
  eexists. split; [exact Hstep|]. cbn [activity_logs job_queue].
  split; [done|]. split; [done|]. split; [|split].
  - unfold determine_next. cbn [job_queue]. by destruct rest.
  - intros fuel. split.
    + by rewrite invoke_from_S, Hstep.
    + by rewrite executed_from_S, Hstep, Hq.
  - intros next rest' fuel ->.
    rewrite executed_from_S, Hstep, Hq. cbn [take app].
    unfold determine_next at 1. cbn [job_queue].
    rewrite executed_from_S.
    erewrite perform_task_cons by reflexivity. cbn [job_queue take app]. eauto.
Qed.

Lemma C3_failure_is_logged_witness :
  ∃ data',
    perform_task (simulated_agent example_scope) failing_data = Return data' ∧
    activity_logs data' =
      activity_logs failing_data ++
      ["Task failed: " +:+ repr_job broken_job +:+ " - " +:+ Py.str_exn (KeyError "port")] ∧
    job_queue data' = [gobuster_job "example.com"] ∧
    determine_next data'
    = (if decide ([gobuster_job "example.com"] = []) then complete else process) ∧
    (∀ fuel,
       invoke_from (simulated_agent example_scope) (S fuel) process failing_data
       = invoke_from (simulated_agent example_scope) fuel (determine_next data') data' ∧
       executed_from (simulated_agent example_scope) (S fuel) process failing_data
       = broken_job ::
         executed_from (simulated_agent example_scope) fuel (determine_next data') data') ∧
    (∀ next rest' fuel,
       [gobuster_job "example.com"] = next :: rest' →
       ∃ later,
         executed_from (simulated_agent example_scope) (S (S fuel)) process failing_data
         = broken_job :: next :: later).
Proof.
  exact (C3_failure_is_logged (simulated_agent example_scope) failing_data
           broken_job [gobuster_job "example.com"] (KeyError "port") eq_refl eq_refl).
Defined.

(** The failure entry of [broken_job], spelled out. *)
Example broken_job_entry :
  log_entry (simulated_agent example_scope) broken_job
  = "Task failed: {'utility': 'nmap', 'target': 'example.com', 'parameters': '-p {port}'} - 'port'".
Proof. reflexivity. Qed.

(** ** The activity log *)

Section Log.

Variable self : CyberSecurityAgent.

(** Planning touches the queue only. *)
Lemma plan_jobs_frame (data data' : CyberAuditData) :
  plan_jobs self data = Return data' →
  directive data' = directive data ∧
  activity_logs data' = activity_logs data ∧
  assessment_scope data' = assessment_scope data.
Proof.
  destruct (job_queue data) as [|j q] eqn:Hq.
  - rewrite (plan_jobs_empty self data Hq).
    destruct (wants_port_scan (directive data) || wants_directories (directive data)).
    + destruct (first_domain self) as [d|e]; simpl; [|done].
      intros [= <-]. done.
    + intros [= <-]. done.
  - rewrite plan_jobs_busy by (rewrite Hq; done). intros [= <-]. done.
Qed.

(** One "process" step appends the entry of the job it pops, if any. *)
Lemma perform_task_logs (data data' : CyberAuditData) :
  perform_task self data = Return data' →
  activity_logs data' =
    activity_logs data ++ map (log_entry self) (take 1 (job_queue data)).
Proof.
  destruct (job_queue data) as [|j q] eqn:Hq.
  - rewrite (perform_task_nil self data Hq). intros [= <-]. simpl. by rewrite app_nil_r.
  - rewrite (perform_task_cons self data j q Hq). intros [= <-]. done.
Qed.

(** The log at the end of a walk is the log at its start followed
    by the entries of the executed jobs, in the order of execution. *)
Lemma invoke_from_logs (fuel : nat) :
  ∀ (n : node) (data final : CyberAuditData),
    invoke_from self fuel n data = Return final →
    activity_logs final =
      activity_logs data ++ map (log_entry self) (executed_from self fuel n data).
Proof.
  induction fuel as [|fuel IH]; intros n data final; [done|].
  rewrite invoke_from_S, executed_from_S. destruct n.
  - destruct (plan_jobs self data) as [data'|e] eqn:Hplan; simpl; [|done].
    intros Hrest. apply IH in Hrest.
    destruct (plan_jobs_frame data data' Hplan) as (_ & Hlogs & _). congruence.
  - destruct (perform_task self data) as [data'|e] eqn:Hstep; simpl; [|done].
    intros Hrest. apply IH in Hrest.
    rewrite Hrest, (perform_task_logs data data' Hstep), map_app. by rewrite app_assoc.
  - intros [= <-]. simpl. by rewrite app_nil_r.
Qed.

Lemma run_logs (d : string) (final : CyberAuditData) :
  run self d = Return final →
  activity_logs final = map (log_entry self) (executed self d).
Proof.
  unfold run, executed. generalize recursion_limit as limit.
  intros limit Hrun. apply invoke_from_logs in Hrun. exact Hrun.
Qed.

End Log.

(** C4: when a run returns, its activity log is the list of the entries
    of the executed jobs in the order of execution, so its length is the
    number of executed jobs; every "process" step extends the log by the
    one entry of the job it pops and keeps what was there, and planning
    leaves the log alone. *)
Theorem C4_log_follows_execution (self : CyberSecurityAgent) (d : string)
    (final : CyberAuditData) :
  run self d = Return final →
  activity_logs final = map (log_entry self) (executed self d) ∧
  length (activity_logs final) = length (executed self d) ∧
  (∀ data data' current_task rest,
     job_queue data = current_task :: rest →
     perform_task self data = Return data' →
     activity_logs data' = activity_logs data ++ [log_entry self current_task]) ∧
  (∀ data data', plan_jobs self data = Return data' →
     activity_logs data' = activity_logs data).
Proof.
  intros Hrun.
  pose proof (run_logs self d final Hrun) as Hlog.
  split; [exact Hlog|]. split; [by rewrite Hlog, length_map|]. split.
  - intros data data' j q Hq Hstep. rewrite (perform_task_logs self data data' Hstep), Hq. done.
  - intros data data' Hplan. by destruct (plan_jobs_frame self data data' Hplan) as (_ & ? & _).
Qed.

Lemma C4_log_follows_execution_witness :
  activity_logs scenario_final
  = map (log_entry (simulated_agent scenario_scope))
      (executed (simulated_agent scenario_scope) scenario_directive) ∧
  length (activity_logs scenario_final)
  = length (executed (simulated_agent scenario_scope) scenario_directive) ∧
  (∀ data data' current_task rest,
     job_queue data = current_task :: rest →
     perform_task (simulated_agent scenario_scope) data = Return data' →
     activity_logs data'
     = activity_logs data ++ [log_entry (simulated_agent scenario_scope) current_task]) ∧
  (∀ data data', plan_jobs (simulated_agent scenario_scope) data = Return data' →
     activity_logs data' = activity_logs data).
Proof.
  apply (C4_log_follows_execution (simulated_agent scenario_scope) scenario_directive
           scenario_final).
  vm_compute. reflexivity.
Defined.

(** ** What the planner emits *)

(** C5: when the lowercased directive holds "scan" and "ports" and the
    scope has a first domain [d], planning an empty queue puts exactly
    one nmap job in it, at the front, on [d] with the fixed port list;
    whether a gobuster job follows is decided by the other rule alone.
    Only the lowercased text counts: a directive with the same lowercase
    form fires the rule as well. *)
Theorem C5_port_scan_planned (self : CyberSecurityAgent) (data : CyberAuditData)
    (d : string) (ds : list string) :
  job_queue data = [] →
  wants_port_scan (directive data) = true →
  self_assessment_scope self !! "domains" = Some (d :: ds) →
  ∃ data',
    plan_jobs self data = Return data' ∧
    job_queue data' =
      mkJob "nmap" d "-Pn -p 80,443,22,8080" ::
      (if wants_directories (directive data) then [gobuster_job d] else []) ∧
    length (filter (λ job, utility job = "nmap") (job_queue data')) = 1 ∧
    (∀ other, Py.lower other = Py.lower (directive data) → wants_port_scan other = true).
Proof.
  intros Hq Hscan Hdom.
  rewrite (plan_jobs_empty self data Hq), Hscan, (first_domain_cons self d ds Hdom).
  eexists. split; [reflexivity|]. unfold planned. rewrite Hscan. cbn [job_queue with_job_queue app].
  split; [done|]. split.
  - by destruct (wants_directories (directive data)).
  - intros other Hlow. unfold wants_port_scan in *. by rewrite Hlow.
Qed.

Lemma C5_port_scan_planned_witness :
  ∃ data',
    plan_jobs (simulated_agent example_scope)
      (initial_data (simulated_agent example_scope) "SCAN the open Ports") = Return data' ∧
    job_queue data' =
      mkJob "nmap" "example.com" "-Pn -p 80,443,22,8080" ::
      (if wants_directories
            (directive (initial_data (simulated_agent example_scope) "SCAN the open Ports"))
       then [gobuster_job "example.com"] else []) ∧
    length (filter (λ job, utility job = "nmap") (job_queue data')) = 1 ∧
    (∀ other,
       Py.lower other
       = Py.lower (directive (initial_data (simulated_agent example_scope) "SCAN the open Ports")) →
       wants_port_scan other = true).
Proof.
  exact (C5_port_scan_planned (simulated_agent example_scope)
           (initial_data (simulated_agent example_scope) "SCAN the open Ports")
           "example.com" [] eq_refl eq_refl eq_refl).
Defined.

(** C6: when the directive fires neither rule, planning leaves the queue
    empty whatever the scope holds, [determine_next] goes from "initiate"
    straight to "complete", and the run returns the initial data: no job
    executed, empty activity log. *)
Theorem C6_nothing_planned (self : CyberSecurityAgent) (d : string) :
  wants_port_scan d = false →
  wants_directories d = false →
  plan_jobs self (initial_data self d) = Return (initial_data self d) ∧
  job_queue (initial_data self d) = [] ∧
  determine_next (initial_data self d) = complete ∧
  run self d = Return (initial_data self d) ∧
  activity_logs (initial_data self d) = [] ∧
  executed self d = [].
Proof.
  intros Hscan Hdir.
  assert (Hplan : plan_jobs self (initial_data self d) = Return (initial_data self d)).
  { rewrite plan_jobs_empty by done. cbn [directive initial_data]. by rewrite Hscan, Hdir. }
  split; [exact Hplan|]. split; [done|]. split; [done|]. split; [|split; [done|]].
  - rewrite run_unfold, Hplan. cbn [mbind outcome_bind Py.bind]. by rewrite invoke_from_S.
  - rewrite executed_unfold, Hplan. by rewrite executed_from_S.
Qed.

Lemma C6_nothing_planned_witness :
  plan_jobs (simulated_agent no_domains_scope)
    (initial_data (simulated_agent no_domains_scope) "Report on ports")
  = Return (initial_data (simulated_agent no_domains_scope) "Report on ports") ∧
  job_queue (initial_data (simulated_agent no_domains_scope) "Report on ports") = [] ∧
  determine_next (initial_data (simulated_agent no_domains_scope) "Report on ports") = complete ∧
  run (simulated_agent no_domains_scope) "Report on ports"
  = Return (initial_data (simulated_agent no_domains_scope) "Report on ports") ∧
  activity_logs (initial_data (simulated_agent no_domains_scope) "Report on ports") = [] ∧
  executed (simulated_agent no_domains_scope) "Report on ports" = [].
Proof.
  exact (C6_nothing_planned (simulated_agent no_domains_scope) "Report on ports"
           eq_refl eq_refl).
Defined.

(** ** Walking the queue *)

Section Walk.

Variable self : CyberSecurityAgent.

Lemma invoke_process_cons (fuel : nat) (data : CyberAuditData) (job : Job)
    (rest : list Job) :
  job_queue data = job :: rest →
  invoke_from self (S fuel) process data
  = invoke_from self fuel (determine_next (after_job self data job rest))
      (after_job self data job rest).
Proof.
  intros Hq. by rewrite invoke_from_S, (perform_task_cons self data job rest Hq).
Qed.

Lemma executed_process_cons (fuel : nat) (data : CyberAuditData) (job : Job)
    (rest : list Job) :
  job_queue data = job :: rest →
  executed_from self (S fuel) process data
  = job :: executed_from self fuel (determine_next (after_job self data job rest))
             (after_job self data job rest).
Proof.
  intros Hq. by rewrite executed_from_S, (perform_task_cons self data job rest Hq), Hq.
Qed.

(** A follow-on job is a gobuster job on the target of the job that
    ran, and only an nmap job has one. *)
Lemma follow_on_cases (job : Job) :
  follow_on self job = [] ∨
  (utility job = "nmap" ∧ follow_on self job = [gobuster_job (target job)]).
Proof.
  unfold follow_on. destruct (self_run_utility self job) as [output|e]; [|by left].
  destruct (String.eqb (utility job) "nmap") eqn:Hu; [|by left].
  apply String.eqb_eq in Hu.
  destruct (Py.contains "80/tcp" output || Py.contains "443/tcp" output); simpl; auto.
Qed.

Lemma follow_on_weight (job : Job) : weight (follow_on self job) + 1 ≤ cost job.
Proof.
  destruct (follow_on_cases job) as [-> | [Hu ->]]; unfold weight, cost; simpl.
  - destruct (String.eqb (utility job) "nmap"); lia.
  - rewrite Hu. simpl. lia.
Qed.

Lemma follow_on_no_nmap (job : Job) : filter is_nmap (follow_on self job) = [].
Proof. by destruct (follow_on_cases job) as [-> | [_ ->]]. Qed.

Lemma weight_app (q1 q2 : list Job) : weight (q1 ++ q2) = weight q1 + weight q2.
Proof. apply sum_list_with_app. Qed.

Lemma cost_pos (job : Job) : 1 ≤ cost job.
Proof. unfold cost. destruct (String.eqb (utility job) "nmap"); lia. Qed.

(** From any queue the walk reaches "complete" with the queue empty,
    within [weight] runs of "process": each run pops a job, and only
    an nmap job, which is never added again, adds one. *)
Lemma dispatch_terminates (fuel : nat) :
  ∀ data : CyberAuditData,
    weight (job_queue data) < fuel →
    ∃ final,
      invoke_from self fuel (determine_next data) data = Return final ∧
      job_queue final = [] ∧
      length (executed_from self fuel (determine_next data) data) ≤ weight (job_queue data) ∧
      filter is_nmap (executed_from self fuel (determine_next data) data)
      = filter is_nmap (job_queue data).
Proof.
  induction fuel as [|fuel IH]; intros data Hfuel; [lia|].
  destruct (job_queue data) as [|job rest] eqn:Hq.
  - exists data. unfold determine_next. rewrite Hq, invoke_from_S, executed_from_S.
    split; [done|]. split; [done|]. split; [simpl; lia | done].
  - assert (Hnext : determine_next data = process)
      by (unfold determine_next; by rewrite Hq).
    rewrite Hnext.
    rewrite (invoke_process_cons fuel data job rest Hq),
            (executed_process_cons fuel data job rest Hq).
    pose proof (follow_on_weight job) as Hfollow.
    assert (Hless : weight (job_queue (after_job self data job rest)) < fuel).
    { cbn [after_job job_queue]. rewrite weight_app.
      change (weight (job :: rest)) with (cost job + weight rest) in Hfuel. lia. }
    destruct (IH (after_job self data job rest) Hless) as (final & Hrun & Hempty & Hlen & Hnmap).
    exists final. split; [exact Hrun|]. split; [exact Hempty|]. split.
    + cbn [length]. cbn [after_job job_queue] in Hlen. rewrite weight_app in Hlen.
      change (weight (job :: rest)) with (cost job + weight rest). lia.
    + rewrite filter_cons, Hnmap. cbn [after_job job_queue].
      rewrite filter_app, follow_on_no_nmap, app_nil_r. by rewrite (filter_cons _ job rest).
Qed.

(** The planned queue weighs at most 3 and holds at most one nmap
    job. *)
Lemma planned_weight (d t : string) : weight (planned d t) ≤ 3.
Proof.
  unfold planned. by destruct (wants_port_scan d), (wants_directories d); vm_compute; lia.
Qed.

Lemma planned_nmap (d t : string) : length (filter is_nmap (planned d t)) ≤ 1.
Proof.
  unfold planned. by destruct (wants_port_scan d), (wants_directories d); vm_compute; lia.
Qed.

(** The data that planning returns: the queue is the planned one on
    the first domain, or was left as it was. *)
Lemma plan_jobs_return (data data' : CyberAuditData) :
  plan_jobs self data = Return data' →
  data' = data ∨
  (job_queue data = [] ∧
   wants_port_scan (directive data) || wants_directories (directive data) = true ∧
   ∃ t, first_domain self = Return t ∧
        data' = with_job_queue (planned (directive data) t) data).
Proof.
  destruct (job_queue data) as [|j q] eqn:Hq.
  - rewrite (plan_jobs_empty self data Hq).
    destruct (wants_port_scan (directive data) || wants_directories (directive data)).
    + destruct (first_domain self) as [t|e]; simpl; [|done].
      intros [= <-]. right. eauto.
    + intros [= <-]. by left.
  - rewrite plan_jobs_busy by (rewrite Hq; done). intros [= <-]. by left.
Qed.

Lemma plan_jobs_raise (data : CyberAuditData) (e : exn) :
  plan_jobs self data = Raise e →
  job_queue data = [] ∧
  wants_port_scan (directive data) || wants_directories (directive data) = true ∧
  first_domain self = Raise e.
Proof.
  destruct (job_queue data) as [|j q] eqn:Hq.
  - rewrite (plan_jobs_empty self data Hq).
    destruct (wants_port_scan (directive data) || wants_directories (directive data)).
    + by destruct (first_domain self) as [t|e']; simpl; [|intros [= ->]].
    + done.
  - by rewrite plan_jobs_busy by (rewrite Hq; done).
Qed.

End Walk.

(** ** The scenario, step by step *)

(** C7: with the directive and the scope of the scenario, and a
    [format] that fills the two templates as Python does, planning
    queues the nmap job and then the gobuster job; the nmap output holds
    both "80/tcp" and "443/tcp", and running the nmap job adds one
    gobuster job at the back; the run executes nmap, gobuster, gobuster
    and ends with these three outputs in the log, in this order. *)
Theorem C7_scenario (format : string → string → outcome string) :
  format nmap_parameters "example.com" = Return "-Pn -p 80,443,22,8080" →
  format gobuster_parameters "example.com"
  = Return "dir -u http://example.com -w /usr/share/wordlists/dirb/common.txt" →
  plan_jobs (scenario_agent format) (initial_data (scenario_agent format) scenario_directive)
  = Return scenario_planned ∧
  Py.contains "80/tcp" (simulate_nmap_scan "example.com") = true ∧
  Py.contains "443/tcp" (simulate_nmap_scan "example.com") = true ∧
  perform_task (scenario_agent format) scenario_planned = Return scenario_scanned ∧
  executed (scenario_agent format) scenario_directive
  = [nmap_job "example.com"; gobuster_job "example.com"; gobuster_job "example.com"] ∧
  run (scenario_agent format) scenario_directive = Return scenario_final ∧
  activity_logs scenario_final
  = [ simulate_nmap_scan "example.com";
      simulate_gobuster_scan "example.com";
      simulate_gobuster_scan "example.com" ].
Proof.
  intros Hnmap Hgobuster.
  set (self := scenario_agent format).
  assert (Hrun_n : self_run_utility self (nmap_job "example.com")
                   = Return (simulate_nmap_scan "example.com")).
  { unfold self, scenario_agent, run_utility. cbn [self_run_utility nmap_job parameters target].
    by rewrite Hnmap. }
  assert (Hrun_g : self_run_utility self (gobuster_job "example.com")
                   = Return (simulate_gobuster_scan "example.com")).
  { unfold self, scenario_agent, run_utility.
    cbn [self_run_utility gobuster_job parameters target]. by rewrite Hgobuster. }
  assert (Hfollow_n : follow_on self (nmap_job "example.com") = [gobuster_job "example.com"]).
  { unfold follow_on. by rewrite Hrun_n. }
  assert (Hfollow_g : follow_on self (gobuster_job "example.com") = []).
  { unfold follow_on. by rewrite Hrun_g. }
  assert (Hentry_n : log_entry self (nmap_job "example.com") = simulate_nmap_scan "example.com").
  { unfold log_entry. by rewrite Hrun_n. }
  assert (Hentry_g : log_entry self (gobuster_job "example.com")
                     = simulate_gobuster_scan "example.com").
  { unfold log_entry. by rewrite Hrun_g. }
  assert (Hplan : plan_jobs self (initial_data self scenario_directive) = Return scenario_planned)
    by reflexivity.
  assert (Hscan : after_job self scenario_planned (nmap_job "example.com")
                    [gobuster_job "example.com"] = scenario_scanned).
  { unfold after_job. by rewrite Hfollow_n, Hentry_n. }
  split; [exact Hplan|]. split; [reflexivity|]. split; [reflexivity|]. split; [|split; [|split]].
  - rewrite (perform_task_cons self scenario_planned (nmap_job "example.com")
               [gobuster_job "example.com"]) by reflexivity.
    by rewrite Hfollow_n, Hentry_n.
  - rewrite executed_unfold, Hplan.
    change (determine_next scenario_planned) with process.
    rewrite (executed_process_cons self _ scenario_planned (nmap_job "example.com")
               [gobuster_job "example.com"]) by reflexivity.
    rewrite Hscan. change (determine_next scenario_scanned) with process.
    rewrite (executed_process_cons self _ scenario_scanned (gobuster_job "example.com")
               [gobuster_job "example.com"]) by reflexivity.
    unfold after_job. rewrite Hfollow_g, Hentry_g.
    cbn [job_queue directive activity_logs assessment_scope scenario_scanned app determine_next].
    erewrite executed_process_cons by reflexivity.
    unfold after_job. rewrite Hfollow_g, Hentry_g.
    cbn [job_queue directive activity_logs assessment_scope app determine_next].
    by rewrite executed_from_S.
  - rewrite run_unfold, Hplan. cbn [mbind outcome_bind Py.bind].
    change (determine_next scenario_planned) with process.
    rewrite (invoke_process_cons self _ scenario_planned (nmap_job "example.com")
               [gobuster_job "example.com"]) by reflexivity.
    rewrite Hscan. change (determine_next scenario_scanned) with process.
    rewrite (invoke_process_cons self _ scenario_scanned (gobuster_job "example.com")
               [gobuster_job "example.com"]) by reflexivity.
    unfold after_job. rewrite Hfollow_g, Hentry_g.
    cbn [job_queue directive activity_logs assessment_scope scenario_scanned app determine_next].
    erewrite invoke_process_cons by reflexivity.
    unfold after_job. rewrite Hfollow_g, Hentry_g.
    cbn [job_queue directive activity_logs assessment_scope app determine_next].
    by rewrite invoke_from_S.
  - reflexivity.
Qed.

Lemma C7_scenario_witness :
  plan_jobs (scenario_agent plain_format)
    (initial_data (scenario_agent plain_format) scenario_directive)
  = Return scenario_planned ∧
  Py.contains "80/tcp" (simulate_nmap_scan "example.com") = true ∧
  Py.contains "443/tcp" (simulate_nmap_scan "example.com") = true ∧
  perform_task (scenario_agent plain_format) scenario_planned = Return scenario_scanned ∧
  executed (scenario_agent plain_format) scenario_directive
  = [nmap_job "example.com"; gobuster_job "example.com"; gobuster_job "example.com"] ∧
  run (scenario_agent plain_format) scenario_directive = Return scenario_final ∧
  activity_logs scenario_final
  = [ simulate_nmap_scan "example.com";
      simulate_gobuster_scan "example.com";
      simulate_gobuster_scan "example.com" ].
Proof.
  exact (C7_scenario plain_format eq_refl eq_refl).
Defined.

(** ** Jobs stay inside the scope *)

Section Scope.

Variable self : CyberSecurityAgent.

Lemma first_domain_in_scope (t : string) :
  first_domain self = Return t → t ∈ scope_domains self.
Proof.
  unfold first_domain, scope_domains, Py.getitem, Py.index.
  destruct (self_assessment_scope self !! "domains") as [[|t' ds]|]; simpl; try done.
  intros [= ->]. apply list_elem_of_here.
Qed.

Lemma planned_in_scope (d t : string) :
  t ∈ scope_domains self → Forall (in_scope self) (planned d t).
Proof.
  intros Ht. unfold planned.
  destruct (wants_port_scan d), (wants_directories d); simpl; repeat constructor; exact Ht.
Qed.

Lemma follow_on_in_scope (job : Job) :
  in_scope self job → Forall (in_scope self) (follow_on self job).
Proof.
  intros Hjob. destruct (follow_on_cases self job) as [-> | [_ ->]]; repeat constructor.
  exact Hjob.
Qed.

(** One node run keeps every queued job inside the scope. *)
Lemma node_step_in_scope (n n' : node) (data data' : CyberAuditData) :
  Forall (in_scope self) (job_queue data) →
  node_step self n data = Return (Some (n', data')) →
  Forall (in_scope self) (job_queue data').
Proof.
  intros Hinv. destruct n; cbn [node_step]; [| |done].
  - destruct (plan_jobs self data) as [data1|e] eqn:Hplan; simpl; [|done].
    intros [= _ <-].
    destruct (plan_jobs_return self data data1 Hplan) as [-> | (_ & _ & t & Ht & ->)];
      [exact Hinv|].
    cbn [job_queue with_job_queue]. apply planned_in_scope, first_domain_in_scope, Ht.
  - destruct (job_queue data) as [|job rest] eqn:Hq.
    + rewrite (perform_task_nil self data Hq). simpl. intros [= _ <-]. by rewrite Hq.
    + rewrite (perform_task_cons self data job rest Hq). simpl. intros [= _ <-].
      cbn [job_queue]. apply Forall_cons in Hinv as [Hjob Hrest].
      apply Forall_app. split; [exact Hrest | by apply follow_on_in_scope].
Qed.

(** A walk that returns ends in a reachable state. *)
Lemma invoke_from_reachable (d : string) (fuel : nat) :
  ∀ (n : node) (data final : CyberAuditData),
    reachable self d n data →
    invoke_from self fuel n data = Return final →
    reachable self d complete final ∨ (n = complete ∧ final = data).
Proof.
  induction fuel as [|fuel IH]; intros n data final Hreach; [done|].
  cbn [invoke_from].
  destruct (node_step self n data) as [[[n' data']|]|e] eqn:Hstep; simpl; [| |done].
  - intros Hrest.
    destruct (IH n' data' final (reachable_step self d n n' data data' Hreach Hstep) Hrest)
      as [Hfinal | [-> ->]]; [by left|].
    left. exact (reachable_step self d n complete data data' Hreach Hstep).
  - intros [= <-]. right. split; [|done]. by destruct n; simpl in Hstep;
      [destruct (plan_jobs self data) | destruct (perform_task self data) |].
Qed.

End Scope.

(** C8: in every state a run goes through, each job in the queue,
    planned or added by branching, has its target among the domains of
    the scope. *)
Theorem C8_jobs_in_scope (self : CyberSecurityAgent) (d : string) (n : node)
    (data : CyberAuditData) :
  reachable self d n data →
  Forall (λ job, target job ∈ scope_domains self) (job_queue data).
Proof.
  induction 1 as [|n n' data data' _ IH Hstep].
  - constructor.
  - exact (node_step_in_scope self n n' data data' IH Hstep).
Qed.

Lemma C8_jobs_in_scope_witness :
  Forall (λ job, target job ∈ scope_domains (simulated_agent scenario_scope))
    (job_queue scenario_scanned).
Proof.
  apply (C8_jobs_in_scope (simulated_agent scenario_scope) scenario_directive process
           scenario_scanned).
  apply (reachable_step _ _ process process scenario_planned); [|reflexivity].
  apply (reachable_step _ _ initiate process
           (initial_data (simulated_agent scenario_scope) scenario_directive));
    [|reflexivity].
  apply reachable_entry.
Defined.

(** ** Planning twice *)

(** C9: on two states with empty queues and the same directive, whatever
    else they hold, planning gives the same outcome: the same queue, or
    the same exception. Planning again on what planning returned changes
    nothing. *)
Theorem C9_plan_deterministic (self : CyberSecurityAgent) (data1 data2 : CyberAuditData) :
  job_queue data1 = [] →
  job_queue data2 = [] →
  directive data1 = directive data2 →
  Py.omap job_queue (plan_jobs self data1) = Py.omap job_queue (plan_jobs self data2) ∧
  (∀ data', plan_jobs self data1 = Return data' → plan_jobs self data' = Return data').
Proof.
  intros Hq1 Hq2 Hd. split.
  - rewrite (plan_jobs_empty self data1 Hq1), (plan_jobs_empty self data2 Hq2), Hd.
    destruct (wants_port_scan (directive data2) || wants_directories (directive data2));
      [|by simpl; rewrite Hq1, Hq2].
    by destruct (first_domain self).
  - intros data' Hplan.
    destruct (plan_jobs_return self data1 data' Hplan) as [-> | (_ & Hfire & t & _ & ->)];
      [exact Hplan|].
    apply plan_jobs_busy. cbn [job_queue with_job_queue]. unfold planned.
    by destruct (wants_port_scan (directive data1)), (wants_directories (directive data1)).
Qed.

Lemma C9_plan_deterministic_witness :
  Py.omap job_queue
    (plan_jobs (simulated_agent example_scope)
       (mkData scenario_directive [] [] example_scope))
  = Py.omap job_queue
      (plan_jobs (simulated_agent example_scope)
         (mkData scenario_directive [] ["kept"] ∅)) ∧
  (∀ data',
     plan_jobs (simulated_agent example_scope) (mkData scenario_directive [] [] example_scope)
     = Return data' →
     plan_jobs (simulated_agent example_scope) data' = Return data').
Proof.
  exact (C9_plan_deterministic (simulated_agent example_scope)
           (mkData scenario_directive [] [] example_scope)
           (mkData scenario_directive [] ["kept"] ∅) eq_refl eq_refl eq_refl).
Defined.

(** ** Every run ends *)

(** C10, as stated, fails: with the directive "scan ports" and an empty
    "domains" list the run raises out of planning; it returns no state,
    so "complete" is not reached. *)
Lemma C10_counterexample :
  run (simulated_agent no_domains_scope) "scan ports"
  = Raise (IndexError "list index out of range") ∧
  ¬ ∃ final, run (simulated_agent no_domains_scope) "scan ports" = Return final.
Proof.
  assert (H : run (simulated_agent no_domains_scope) "scan ports"
              = Raise (IndexError "list index out of range")) by (vm_compute; reflexivity).
  split; [exact H|]. intros [final Hfinal]. rewrite H in Hfinal. discriminate Hfinal.
Qed.

(** C10, amended: every run ends within the step limit of the graph. It
    pops and executes at most 3 jobs, at most one of them an nmap job.
    Either it returns, with the queue empty and at most 3 log entries,
    or planning raised because a rule fired and the scope has no first
    domain: then the run ends with that exception and no job was
    executed. *)
Theorem C10_run_bounded (self : CyberSecurityAgent) (d : string) :
  length (executed self d) ≤ 3 ∧
  length (filter is_nmap (executed self d)) ≤ 1 ∧
  ((∃ final,
      run self d = Return final ∧ job_queue final = [] ∧ length (activity_logs final) ≤ 3)
   ∨
   (∃ e,
      run self d = Raise e ∧
      wants_port_scan d || wants_directories d = true ∧
      first_domain self = Raise e ∧
      executed self d = [])).
Proof.
  destruct (plan_jobs self (initial_data self d)) as [data'|e] eqn:Hplan.
  - assert (Hbound : weight (job_queue data') ≤ 3 ∧
                     length (filter is_nmap (job_queue data')) ≤ 1).
    { destruct (plan_jobs_return self _ data' Hplan) as [-> | (_ & _ & t & _ & ->)].
      - simpl. split; [unfold weight; simpl|]; lia.
      - cbn [job_queue with_job_queue]. split; [apply planned_weight | apply planned_nmap]. }
    destruct Hbound as [Hweight Hnmap].
    destruct (dispatch_terminates self 24 data') as (final & Hrun & Hempty & Hlen & Hfilter);
      [lia|].
    assert (Hreturn : run self d = Return final).
    { rewrite run_unfold, Hplan. exact Hrun. }
    assert (Hexec : executed self d = executed_from self 24 (determine_next data') data').
    { by rewrite executed_unfold, Hplan. }
    split; [rewrite Hexec; lia|]. split; [rewrite Hexec, Hfilter; exact Hnmap|].
    left. exists final. split; [exact Hreturn|]. split; [exact Hempty|].
    rewrite (run_logs self d final Hreturn), length_map, Hexec. lia.
  - destruct (plan_jobs_raise self _ e Hplan) as (_ & Hfire & Hdomain).
    assert (Hexec : executed self d = []) by (by rewrite executed_unfold, Hplan).
    rewrite Hexec. split; [simpl; lia|]. split; [simpl; lia|].
    right. exists e. split; [by rewrite run_unfold, Hplan|]. done.
Qed.

(** * Further properties of the code *)

(** ** Strings under concatenation *)

Lemma append_assoc (a b c : string) : (a +:+ b) +:+ c = a +:+ b +:+ c.
Proof.
  induction a as [|x a IH]; [done|].
  change (String x ((a +:+ b) +:+ c) = String x (a +:+ b +:+ c)). by f_equal.
Qed.

Lemma lower_app (a b : string) : Py.lower (a +:+ b) = Py.lower a +:+ Py.lower b.
Proof.
  induction a as [|x a IH]; [done|].
  change (String (Py.lower_ascii x) (Py.lower (a +:+ b))
          = String (Py.lower_ascii x) (Py.lower a +:+ Py.lower b)).
  by f_equal.
Qed.

Lemma contains_app_l (sub a b : string) :
  Py.contains sub a = true → Py.contains sub (a +:+ b) = true.
Proof.
  rewrite !contains_spec. intros (x & y & ->). exists x, (y +:+ b).
  by rewrite !append_assoc.
Qed.

Lemma contains_app_r (sub a b : string) :
  Py.contains sub b = true → Py.contains sub (a +:+ b) = true.
Proof.
  rewrite !contains_spec. intros (x & y & ->). exists (a +:+ x), y.
  by rewrite !append_assoc.
Qed.

(** ** A scope without the "domains" key *)

(** X1: when a rule fires and the scope dictionary has no "domains"
    key, planning an empty queue raises [KeyError] on that key, and so
    does the run; [str] of the exception is the quoted key. *)
Theorem missing_domains_key_raises (self : CyberSecurityAgent) (d : string) :
  wants_port_scan d || wants_directories d = true →
  self_assessment_scope self !! "domains" = None →
  (∀ data, job_queue data = [] → directive data = d →
     plan_jobs self data = Raise (KeyError "domains")) ∧
  run self d = Raise (KeyError "domains") ∧
  executed self d = [] ∧
  Py.str_exn (KeyError "domains") = "'domains'".
Proof.
  intros Hfire Hdom.
  assert (Hplan : ∀ data, job_queue data = [] → directive data = d →
            plan_jobs self data = Raise (KeyError "domains")).
  { intros data Hq Hd. rewrite (plan_jobs_empty self data Hq), Hd, Hfire.
    by rewrite (first_domain_missing self Hdom). }
  split; [exact Hplan|]. split; [|split; [|reflexivity]].
  - by rewrite run_unfold, (Hplan (initial_data self d)).
  - by rewrite executed_unfold, (Hplan (initial_data self d)).
Qed.

Lemma missing_domains_key_raises_witness :
  (∀ data, job_queue data = [] → directive data = "discover directories" →
     plan_jobs (simulated_agent {[ "ips" := ["192.168.1.0/24"] ]}) data
     = Raise (KeyError "domains")) ∧
  run (simulated_agent {[ "ips" := ["192.168.1.0/24"] ]}) "discover directories"
  = Raise (KeyError "domains") ∧
  executed (simulated_agent {[ "ips" := ["192.168.1.0/24"] ]}) "discover directories" = [] ∧
  Py.str_exn (KeyError "domains") = "'domains'".
Proof.
  exact (missing_domains_key_raises (simulated_agent {[ "ips" := ["192.168.1.0/24"] ]})
           "discover directories" eq_refl eq_refl).
Defined.

(** ** [perform_task] never raises *)

(** X2: whatever the data and whatever [run_utility] does, including
    raising, [perform_task] returns. It keeps the directive and the
    scope, never makes the queue longer, adds one log entry exactly when
    there was a job to pop, and on an empty queue returns the data as it
    got them. *)
Theorem perform_task_safe (self : CyberSecurityAgent) (data : CyberAuditData) :
  ∃ data',
    perform_task self data = Return data' ∧
    directive data' = directive data ∧
    assessment_scope data' = assessment_scope data ∧
    length (job_queue data') ≤ length (job_queue data) ∧
    length (activity_logs data')
    = length (activity_logs data) + length (take 1 (job_queue data)) ∧
    (job_queue data = [] → data' = data).
Proof.
  destruct (job_queue data) as [|job rest] eqn:Hq.
  - exists data. rewrite (perform_task_nil self data Hq), Hq. simpl.
    repeat split; try done; lia.
  - eexists. split; [exact (perform_task_cons self data job rest Hq)|].
    cbn [directive assessment_scope job_queue activity_logs].
    split; [done|]. split; [done|]. split; [|split; [|done]].
    + rewrite length_app. simpl.
      destruct (follow_on_cases self job) as [-> | [_ ->]]; simpl; lia.
    + rewrite length_app. simpl. lia.
Qed.

(** ** The order in which a queue is executed *)

Section Order.

Variable self : CyberSecurityAgent.

Lemma follow_ons_app (q1 q2 : list Job) :
  follow_ons self (q1 ++ q2) = follow_ons self q1 ++ follow_ons self q2.
Proof. unfold follow_ons. by rewrite fmap_app, concat_app. Qed.

Lemma follow_ons_cons (job : Job) (rest : list Job) :
  follow_ons self (job :: rest) = follow_on self job ++ follow_ons self rest.
Proof. reflexivity. Qed.

(** The jobs that branching adds add nothing themselves. *)
Lemma follow_on_follow_on (job : Job) : follow_ons self (follow_on self job) = [].
Proof.
  destruct (follow_on_cases self job) as [-> | [_ ->]]; [done|].
  unfold follow_ons, follow_on. simpl.
  by destruct (self_run_utility self (gobuster_job (target job))).
Qed.

Lemma follow_ons_length (queue : list Job) :
  length (follow_ons self queue) ≤ length queue.
Proof.
  induction queue as [|job rest IH]; [done|].
  rewrite follow_ons_cons, length_app. simpl.
  destruct (follow_on_cases self job) as [-> | [_ ->]]; simpl; lia.
Qed.

Lemma follow_ons_elem (job : Job) (queue : list Job) :
  job ∈ follow_ons self queue → ∃ j, j ∈ queue ∧ job ∈ follow_on self j.
Proof.
  induction queue as [|j rest IH]; [by intros ?%elem_of_nil|].
  rewrite follow_ons_cons. intros [Hhere | Hrest]%elem_of_app.
  - exists j. split; [apply list_elem_of_here | exact Hhere].
  - destruct (IH Hrest) as (j' & Hin & Hjob). exists j'.
    split; [by apply list_elem_of_further | exact Hjob].
Qed.

(** A walk keeps the directive and the scope. *)
Lemma node_step_frame (n n' : node) (data data' : CyberAuditData) :
  node_step self n data = Return (Some (n', data')) →
  directive data' = directive data ∧ assessment_scope data' = assessment_scope data.
Proof.
  destruct n; cbn [node_step]; [| |done].
  - destruct (plan_jobs self data) as [data1|e] eqn:Hplan; simpl; [|done].
    intros [= _ <-]. by destruct (plan_jobs_frame self data data1 Hplan) as (? & _ & ?).
  - destruct (job_queue data) as [|job rest] eqn:Hq.
    + rewrite (perform_task_nil self data Hq). simpl. by intros [= _ <-].
    + rewrite (perform_task_cons self data job rest Hq). simpl. by intros [= _ <-].
Qed.

Lemma invoke_from_frame (fuel : nat) :
  ∀ (n : node) (data final : CyberAuditData),
    invoke_from self fuel n data = Return final →
    directive final = directive data ∧ assessment_scope final = assessment_scope data.
Proof.
  induction fuel as [|fuel IH]; intros n data final; [done|].
  cbn [invoke_from].
  destruct (node_step self n data) as [[[n' data']|]|e] eqn:Hstep; simpl; [| |done].
  - intros Hrest. destruct (IH n' data' final Hrest) as [-> ->].
    exact (node_step_frame n n' data data' Hstep).
  - by intros [= <-].
Qed.

Lemma executed_from_schedule (fuel : nat) :
  ∀ data : CyberAuditData,
    weight (job_queue data) < fuel →
    executed_from self fuel (determine_next data) data = schedule self (job_queue data).
Proof.
  induction fuel as [|fuel IH]; intros data Hfuel; [lia|].
  destruct (job_queue data) as [|job rest] eqn:Hq.
  - unfold determine_next. by rewrite Hq, executed_from_S.
  - assert (Hnext : determine_next data = process)
      by (unfold determine_next; by rewrite Hq).
    rewrite Hnext, (executed_process_cons self fuel data job rest Hq).
    pose proof (follow_on_weight self job) as Hfollow.
    rewrite IH.
    + cbn [after_job job_queue]. unfold schedule.
      rewrite follow_ons_app, follow_on_follow_on, app_nil_r, follow_ons_cons.
      by rewrite <- !app_assoc.
    + cbn [after_job job_queue]. rewrite weight_app.
      change (weight (job :: rest)) with (cost job + weight rest) in Hfuel. lia.
Qed.

Lemma invoke_from_schedule (fuel : nat) (data : CyberAuditData) :
  weight (job_queue data) < fuel →
  invoke_from self fuel (determine_next data) data
  = Return (mkData (directive data) []
              (activity_logs data ++ map (log_entry self) (schedule self (job_queue data)))
              (assessment_scope data)).
Proof.
  intros Hfuel.
  destruct (dispatch_terminates self fuel data Hfuel) as (final & Hrun & Hempty & _).
  rewrite Hrun. f_equal.
  destruct (invoke_from_frame fuel _ data final Hrun) as [Hd Hs].
  pose proof (invoke_from_logs self fuel _ data final Hrun) as Hlogs.
  rewrite (executed_from_schedule fuel data Hfuel) in Hlogs.
  destruct final as [d q l s]. simpl in *. by subst.
Qed.

(** A run on a scope with a first domain [t]. *)
Lemma plan_jobs_first_domain (d t : string) (ds : list string) :
  self_assessment_scope self !! "domains" = Some (t :: ds) →
  plan_jobs self (initial_data self d)
  = Return (mkData d (planned d t) [] (self_assessment_scope self)).
Proof.
  intros Hdom. rewrite plan_jobs_empty by done. cbn [directive initial_data].
  rewrite (first_domain_cons self t ds Hdom). unfold planned.
  by destruct (wants_port_scan d), (wants_directories d).
Qed.

Lemma run_schedule (d t : string) (ds : list string) :
  self_assessment_scope self !! "domains" = Some (t :: ds) →
  run self d
  = Return (mkData d [] (map (log_entry self) (schedule self (planned d t)))
              (self_assessment_scope self)).
Proof.
  intros Hdom. rewrite run_unfold, (plan_jobs_first_domain d t ds Hdom).
  apply (invoke_from_schedule 24 (mkData d (planned d t) [] (self_assessment_scope self))).
  cbn [job_queue]. pose proof (planned_weight d t). lia.
Qed.

Lemma executed_schedule (d t : string) (ds : list string) :
  self_assessment_scope self !! "domains" = Some (t :: ds) →
  executed self d = schedule self (planned d t).
Proof.
  intros Hdom. rewrite executed_unfold, (plan_jobs_first_domain d t ds Hdom).
  apply (executed_from_schedule 24 (mkData d (planned d t) [] (self_assessment_scope self))).
  cbn [job_queue]. pose proof (planned_weight d t). lia.
Qed.

End Order.

(** X3: from any queue, given as many steps as the queue weighs, the
    walk executes first the queued jobs in queue order and then the jobs
    they added, in the order they were added, so at most twice as many
    jobs as were queued; it ends with the queue empty, the directive and
    the scope as they were, and the log extended by the entries of these
    jobs in this order. *)
Theorem dispatch_breadth_first (self : CyberSecurityAgent) (fuel : nat)
    (data : CyberAuditData) :
  weight (job_queue data) < fuel →
  executed_from self fuel (determine_next data) data = schedule self (job_queue data) ∧
  invoke_from self fuel (determine_next data) data
  = Return (mkData (directive data) []
              (activity_logs data ++ map (log_entry self) (schedule self (job_queue data)))
              (assessment_scope data)) ∧
  length (schedule self (job_queue data)) ≤ 2 * length (job_queue data).
Proof.
  intros Hfuel.
  split; [exact (executed_from_schedule self fuel data Hfuel)|]. split.
  - exact (invoke_from_schedule self fuel data Hfuel).
  - unfold schedule. rewrite length_app.
    pose proof (follow_ons_length self (job_queue data)). lia.
Qed.

Lemma dispatch_breadth_first_witness :
  executed_from (simulated_agent example_scope) 6
    (determine_next (mkData "later" mixed_queue ["kept"] example_scope))
    (mkData "later" mixed_queue ["kept"] example_scope)
  = schedule (simulated_agent example_scope)
      (job_queue (mkData "later" mixed_queue ["kept"] example_scope)) ∧
  invoke_from (simulated_agent example_scope) 6
    (determine_next (mkData "later" mixed_queue ["kept"] example_scope))
    (mkData "later" mixed_queue ["kept"] example_scope)
  = Return (mkData (directive (mkData "later" mixed_queue ["kept"] example_scope)) []
              (activity_logs (mkData "later" mixed_queue ["kept"] example_scope) ++
               map (log_entry (simulated_agent example_scope))
                 (schedule (simulated_agent example_scope)
                    (job_queue (mkData "later" mixed_queue ["kept"] example_scope))))
              (assessment_scope (mkData "later" mixed_queue ["kept"] example_scope))) ∧
  length (schedule (simulated_agent example_scope)
            (job_queue (mkData "later" mixed_queue ["kept"] example_scope)))
  ≤ 2 * length (job_queue (mkData "later" mixed_queue ["kept"] example_scope)).
Proof.
  apply (dispatch_breadth_first (simulated_agent example_scope) 6
           (mkData "later" mixed_queue ["kept"] example_scope)).
  vm_compute. lia.
Defined.

(** The schedule of [mixed_queue], spelled out: the gobuster job that
    the nmap job adds runs last. *)
Example mixed_queue_schedule :
  schedule (simulated_agent example_scope) mixed_queue
  = mixed_queue ++ [gobuster_job "b.example"].
Proof. reflexivity. Qed.

(** ** A run on a scope with a first domain *)

(** X4: when the "domains" list of the scope has a first element [t],
    the run returns for every directive and every [run_utility], also one
    that raises: the queue is empty, the directive and the scope are
    those of the call, and the log holds the entries of the planned jobs
    followed by the entries of the jobs they added. *)
Theorem run_returns_with_first_domain (self : CyberSecurityAgent) (d t : string)
    (ds : list string) :
  self_assessment_scope self !! "domains" = Some (t :: ds) →
  run self d
  = Return (mkData d [] (map (log_entry self) (schedule self (planned d t)))
              (self_assessment_scope self)) ∧
  executed self d = schedule self (planned d t).
Proof.
  intros Hdom. split.
  - exact (run_schedule self d t ds Hdom).
  - exact (executed_schedule self d t ds Hdom).
Qed.

Lemma run_returns_with_first_domain_witness :
  run (mkAgent example_scope (failing_utility (RuntimeError "offline"))) "scan ports"
  = Return (mkData "scan ports" []
              (map (log_entry (mkAgent example_scope (failing_utility (RuntimeError "offline"))))
                 (schedule (mkAgent example_scope (failing_utility (RuntimeError "offline")))
                    (planned "scan ports" "example.com")))
              (self_assessment_scope
                 (mkAgent example_scope (failing_utility (RuntimeError "offline"))))) ∧
  executed (mkAgent example_scope (failing_utility (RuntimeError "offline"))) "scan ports"
  = schedule (mkAgent example_scope (failing_utility (RuntimeError "offline")))
      (planned "scan ports" "example.com").
Proof.
  exact (run_returns_with_first_domain
           (mkAgent example_scope (failing_utility (RuntimeError "offline")))
           "scan ports" "example.com" [] eq_refl).
Defined.

(** X5: of the scope only the first domain counts. Two scopes whose
    "domains" lists start with the same element give, under the same
    [run_utility], the same executed jobs and the same log, whatever
    further domains and other keys they hold. *)
Theorem only_first_domain_counts (execute : Job → outcome string)
    (scope1 scope2 : gmap string (list string)) (d t : string) (ds1 ds2 : list string) :
  scope1 !! "domains" = Some (t :: ds1) →
  scope2 !! "domains" = Some (t :: ds2) →
  executed (mkAgent scope1 execute) d = executed (mkAgent scope2 execute) d ∧
  Py.omap activity_logs (run (mkAgent scope1 execute) d)
  = Py.omap activity_logs (run (mkAgent scope2 execute) d).
Proof.
  intros H1 H2.
  rewrite (run_schedule (mkAgent scope1 execute) d t ds1 H1),
          (run_schedule (mkAgent scope2 execute) d t ds2 H2),
          (executed_schedule (mkAgent scope1 execute) d t ds1 H1),
          (executed_schedule (mkAgent scope2 execute) d t ds2 H2).
  split; reflexivity.
Qed.

Lemma only_first_domain_counts_witness :
  executed (mkAgent {[ "domains" := ["a.example"; "b.example"] ]} (run_utility plain_format))
    scenario_directive
  = executed (mkAgent {[ "domains" := ["a.example"]; "ips" := ["10.0.0.0/8"] ]}
                (run_utility plain_format)) scenario_directive ∧
  Py.omap activity_logs
    (run (mkAgent {[ "domains" := ["a.example"; "b.example"] ]} (run_utility plain_format))
       scenario_directive)
  = Py.omap activity_logs
      (run (mkAgent {[ "domains" := ["a.example"]; "ips" := ["10.0.0.0/8"] ]}
              (run_utility plain_format)) scenario_directive).
Proof.
  exact (only_first_domain_counts (run_utility plain_format)
           {[ "domains" := ["a.example"; "b.example"] ]}
           {[ "domains" := ["a.example"]; "ips" := ["10.0.0.0/8"] ]}
           scenario_directive "a.example" ["b.example"] [] eq_refl eq_refl).
Defined.

(** X6: every job a run executes is the nmap job or the gobuster job of
    the program on the first domain of the scope: no other utility, no
    other template and no other target is ever run. *)
Theorem executed_jobs_are_planned_kinds (self : CyberSecurityAgent) (d : string) (job : Job) :
  job ∈ executed self d →
  ∃ t, first_domain self = Return t ∧ (job = nmap_job t ∨ job = gobuster_job t).
Proof.
  rewrite executed_unfold.
  destruct (plan_jobs self (initial_data self d)) as [data'|e] eqn:Hplan;
    [|by intros ?%elem_of_nil].
  destruct (plan_jobs_return self _ data' Hplan) as [-> | (_ & _ & t & Ht & ->)].
  - rewrite executed_from_S. by intros ?%elem_of_nil.
  - rewrite executed_from_schedule
      by (cbn [job_queue with_job_queue directive initial_data];
          pose proof (planned_weight d t); lia).
    cbn [job_queue with_job_queue initial_data directive].
    intros Hjob. exists t. split; [exact Ht|].
    assert (Hplanned : ∀ j, j ∈ planned d t → j = nmap_job t ∨ j = gobuster_job t).
    { intros j. unfold planned.
      destruct (wants_port_scan d), (wants_directories d); simpl;
        rewrite ?elem_of_cons, ?elem_of_nil; tauto. }
    unfold schedule in Hjob.
    apply elem_of_app in Hjob as [Hjob | Hjob]; [by apply Hplanned|].
    apply follow_ons_elem in Hjob as (j & Hj & Hin).
    destruct (follow_on_cases self j) as [Hnone | [_ Hone]].
    + rewrite Hnone in Hin. by apply elem_of_nil in Hin.
    + rewrite Hone in Hin. apply list_elem_of_singleton in Hin as ->.
      right. by destruct (Hplanned j Hj) as [-> | ->].
Qed.

Lemma executed_jobs_are_planned_kinds_witness :
  ∃ t, first_domain (simulated_agent scenario_scope) = Return t ∧
       (gobuster_job "example.com" = nmap_job t ∨ gobuster_job "example.com" = gobuster_job t).
Proof.
  apply (executed_jobs_are_planned_kinds (simulated_agent scenario_scope) scenario_directive
           (gobuster_job "example.com")).
  vm_compute. apply list_elem_of_further, list_elem_of_here.
Defined.

(** X7: when every utility fails with [e], a run on a scope with a first
    domain still returns: the log holds one "Task failed" entry per
    planned job, in planning order, and no job is added. *)
Theorem run_with_failing_utilities (scope : gmap string (list string)) (e : exn)
    (d t : string) (ds : list string) :
  scope !! "domains" = Some (t :: ds) →
  run (mkAgent scope (failing_utility e)) d
  = Return (mkData d []
              (map (λ job, "Task failed: " +:+ repr_job job +:+ " - " +:+ Py.str_exn e)
                 (planned d t))
              scope) ∧
  executed (mkAgent scope (failing_utility e)) d = planned d t.
Proof.
  intros Hdom.
  rewrite (run_schedule (mkAgent scope (failing_utility e)) d t ds Hdom),
          (executed_schedule (mkAgent scope (failing_utility e)) d t ds Hdom).
  assert (Hnone : ∀ q, follow_ons (mkAgent scope (failing_utility e)) q = []).
  { induction q as [|j q IH]; [done|]. by rewrite follow_ons_cons, IH. }
  unfold schedule. rewrite Hnone, app_nil_r. done.
Qed.

Lemma run_with_failing_utilities_witness :
  run (mkAgent example_scope (failing_utility (RuntimeError "offline"))) scenario_directive
  = Return (mkData scenario_directive []
              (map (λ job, "Task failed: " +:+ repr_job job +:+ " - "
                           +:+ Py.str_exn (RuntimeError "offline"))
                 (planned scenario_directive "example.com"))
              example_scope) ∧
  executed (mkAgent example_scope (failing_utility (RuntimeError "offline"))) scenario_directive
  = planned scenario_directive "example.com".
Proof.
  exact (run_with_failing_utilities example_scope (RuntimeError "offline")
           scenario_directive "example.com" [] eq_refl).
Defined.

(** ** The simulated utilities *)

(** The nmap report lists port 80 and port 443 whatever the target
    is, also a target that holds text of its own. *)
Lemma simulate_nmap_scan_http (t : string) :
  Py.contains "80/tcp" (simulate_nmap_scan t) = true ∧
  Py.contains "443/tcp" (simulate_nmap_scan t) = true.
Proof.
  unfold simulate_nmap_scan, Py.join.
  split; apply contains_app_r; reflexivity.
Qed.

Section Simulated.

Variable format : string → string → outcome string.
Hypothesis format_fills : fills_templates format.
Variable scope : gmap string (list string).

Lemma simulated_nmap (t : string) :
  run_utility format (nmap_job t) = Return (simulate_nmap_scan t).
Proof.
  unfold run_utility. cbn [nmap_job parameters target utility].
  by rewrite (proj1 (format_fills t)).
Qed.

Lemma simulated_gobuster (t : string) :
  run_utility format (gobuster_job t) = Return (simulate_gobuster_scan t).
Proof.
  unfold run_utility. cbn [gobuster_job parameters target utility].
  by rewrite (proj2 (format_fills t)).
Qed.

Lemma simulated_follow_on_nmap (t : string) :
  follow_on (mkAgent scope (run_utility format)) (nmap_job t) = [gobuster_job t].
Proof.
  unfold follow_on. cbn [self_run_utility]. rewrite simulated_nmap.
  destruct (simulate_nmap_scan_http t) as [-> _]. reflexivity.
Qed.

Lemma simulated_follow_on_gobuster (t : string) :
  follow_on (mkAgent scope (run_utility format)) (gobuster_job t) = [].
Proof. unfold follow_on. cbn [self_run_utility]. by rewrite simulated_gobuster. Qed.

Lemma simulated_entry_nmap (t : string) :
  log_entry (mkAgent scope (run_utility format)) (nmap_job t) = simulate_nmap_scan t.
Proof. unfold log_entry. cbn [self_run_utility]. by rewrite simulated_nmap. Qed.

Lemma simulated_entry_gobuster (t : string) :
  log_entry (mkAgent scope (run_utility format)) (gobuster_job t) = simulate_gobuster_scan t.
Proof. unfold log_entry. cbn [self_run_utility]. by rewrite simulated_gobuster. Qed.

Lemma simulated_schedule_entries (d t : string) :
  map (log_entry (mkAgent scope (run_utility format)))
    (schedule (mkAgent scope (run_utility format)) (planned d t))
  = simulated_reports d t.
Proof.
  unfold schedule, planned, simulated_reports.
  destruct (wants_port_scan d), (wants_directories d);
    cbn [app]; rewrite ?follow_ons_cons, ?simulated_follow_on_nmap,
      ?simulated_follow_on_gobuster; cbn [app map follow_ons fmap list_fmap concat];
    by rewrite ?simulated_entry_nmap, ?simulated_entry_gobuster.
Qed.

Lemma simulated_run (d t : string) (ds : list string) :
  scope !! "domains" = Some (t :: ds) →
  run (mkAgent scope (run_utility format)) d
  = Return (mkData d [] (simulated_reports d t) scope).
Proof.
  intros Hdom. rewrite (run_schedule (mkAgent scope (run_utility format)) d t ds Hdom).
  by rewrite simulated_schedule_entries.
Qed.

End Simulated.

(** X8: with the simulated utilities a port scan always leads to a
    directory scan: for every target the nmap report holds "80/tcp" and
    "443/tcp", so running the nmap job of the program adds the gobuster
    job on the same target, and running a gobuster job adds nothing. *)
Theorem simulated_port_scan_branches (format : string → string → outcome string)
    (scope : gmap string (list string)) (t : string) :
  fills_templates format →
  Py.contains "80/tcp" (simulate_nmap_scan t) = true ∧
  Py.contains "443/tcp" (simulate_nmap_scan t) = true ∧
  follow_on (mkAgent scope (run_utility format)) (nmap_job t) = [gobuster_job t] ∧
  follow_on (mkAgent scope (run_utility format)) (gobuster_job t) = [].
Proof.
  intros Hfmt. destruct (simulate_nmap_scan_http t) as [H80 H443].
  split; [exact H80|]. split; [exact H443|]. split.
  - by apply simulated_follow_on_nmap.
  - by apply simulated_follow_on_gobuster.
Qed.

Lemma plain_format_fills : fills_templates plain_format.
Proof. intros t. split; reflexivity. Qed.

Lemma simulated_port_scan_branches_witness :
  Py.contains "80/tcp" (simulate_nmap_scan "443/tcp") = true ∧
  Py.contains "443/tcp" (simulate_nmap_scan "443/tcp") = true ∧
  follow_on (mkAgent example_scope (run_utility plain_format)) (nmap_job "443/tcp")
  = [gobuster_job "443/tcp"] ∧
  follow_on (mkAgent example_scope (run_utility plain_format)) (gobuster_job "443/tcp") = [].
Proof.
  apply (simulated_port_scan_branches plain_format example_scope "443/tcp").
  intros t. split; reflexivity.
Defined.

(** X9: with the simulated utilities, a run on a scope whose first
    domain is [t] returns, for every directive, with exactly these
    reports in the log: the nmap report when the port-scan rule fires,
    the gobuster report when the directory rule fires, and one more
    gobuster report when the port-scan rule fires. No entry is a failure
    entry, and a directive that fires both rules gets the directory scan
    of [t] twice. *)
Theorem simulated_run_reports (format : string → string → outcome string)
    (scope : gmap string (list string)) (d t : string) (ds : list string) :
  fills_templates format →
  scope !! "domains" = Some (t :: ds) →
  run (mkAgent scope (run_utility format)) d
  = Return (mkData d []
              ((if wants_port_scan d then [simulate_nmap_scan t] else []) ++
               (if wants_directories d then [simulate_gobuster_scan t] else []) ++
               (if wants_port_scan d then [simulate_gobuster_scan t] else []))
              scope).
Proof.
  intros Hfmt Hdom. exact (simulated_run format Hfmt scope d t ds Hdom).
Qed.

Lemma simulated_run_reports_witness :
  run (mkAgent example_scope (run_utility plain_format)) "Please SCAN all ports"
  = Return (mkData "Please SCAN all ports" []
              ((if wants_port_scan "Please SCAN all ports"
                then [simulate_nmap_scan "example.com"] else []) ++
               (if wants_directories "Please SCAN all ports"
                then [simulate_gobuster_scan "example.com"] else []) ++
               (if wants_port_scan "Please SCAN all ports"
                then [simulate_gobuster_scan "example.com"] else []))
              example_scope).
Proof.
  apply (simulated_run_reports plain_format example_scope "Please SCAN all ports"
           "example.com" []).
  - intros t. split; reflexivity.
  - reflexivity.
Defined.

(** ** The form *)

(** The directive of the form fires both rules whatever the domain
    typed in. *)
Lemma form_directive_fires (domain_input : string) :
  wants_port_scan (form_directive domain_input) = true ∧
  wants_directories (form_directive domain_input) = true.
Proof.
  unfold wants_port_scan, wants_directories, form_directive.
  rewrite !lower_app. split; [apply andb_true_iff; split|].
  - apply contains_app_l. reflexivity.
  - apply contains_app_r, contains_app_r. reflexivity.
  - apply contains_app_r, contains_app_r. reflexivity.
Qed.

(** X10: whatever domain and IP range are typed into the form, the
    audit does not raise and shows exactly three text areas: "Log 1"
    with the nmap report of the domain, then "Log 2" and "Log 3", both
    with the gobuster report of the domain, under the keys "log_0",
    "log_1" and "log_2". The IP range has no effect. *)
Theorem form_audit_shows_three_logs (format : string → string → outcome string)
    (domain_input ip_range_input : string) :
  fills_templates format →
  initiate_security_audit format domain_input ip_range_input
  = Return [ mkTextArea "Log 1" (simulate_nmap_scan domain_input) 200 "log_0";
             mkTextArea "Log 2" (simulate_gobuster_scan domain_input) 200 "log_1";
             mkTextArea "Log 3" (simulate_gobuster_scan domain_input) 200 "log_2" ].
Proof.
  intros Hfmt. unfold initiate_security_audit.
  rewrite (simulated_run format Hfmt (form_scope domain_input ip_range_input)
             (form_directive domain_input) domain_input []) by reflexivity.
  unfold simulated_reports.
  destruct (form_directive_fires domain_input) as [-> ->].
  reflexivity.
Qed.

Lemma form_audit_shows_three_logs_witness :
  initiate_security_audit plain_format "google.com" "192.168.1.0/24"
  = Return [ mkTextArea "Log 1" (simulate_nmap_scan "google.com") 200 "log_0";
             mkTextArea "Log 2" (simulate_gobuster_scan "google.com") 200 "log_1";
             mkTextArea "Log 3" (simulate_gobuster_scan "google.com") 200 "log_2" ].
Proof.
  apply (form_audit_shows_three_logs plain_format "google.com" "192.168.1.0/24").
  intros t. split; reflexivity.
Defined.

Lemma log_key_inj : Inj (=) (=) (λ index : nat, "log_" +:+ pretty index).
Proof. intros i j H. by apply (inj pretty), (inj (String.app "log_")). Qed.

(** X11: for every log the loop shows one text area per entry, in the
    order of the log and with the entry as its text; the area of entry
    number [i], counted from 0, is labelled "Log" with [i + 1] and keyed
    "log_" with [i], and no two areas share a key. *)
Theorem show_logs_keys_distinct (activity_logs : list string) :
  NoDup (key <$> show_logs activity_logs) ∧
  value <$> show_logs activity_logs = activity_logs ∧
  ∀ (i : nat) (log_entry : string),
    activity_logs !! i = Some log_entry →
    show_logs activity_logs !! i
    = Some (mkTextArea ("Log " +:+ pretty (i + 1)) log_entry 200 ("log_" +:+ pretty i)).
Proof.
  unfold show_logs. split; [|split].
  - rewrite fmap_imap.
    rewrite (imap_ext _ (λ index _, "log_" +:+ pretty index)) by done.
    rewrite imap_seq_0. apply (@NoDup_fmap_2 _ _ _ log_key_inj), NoDup_seq.
  - rewrite fmap_imap. rewrite (imap_ext _ (λ _ entry, entry)) by done.
    induction activity_logs as [|entry rest IH]; [done|].
    rewrite imap_cons. f_equal. exact IH.
  - intros i entry Hi. by rewrite list_lookup_imap, Hi.
Qed.

(** ** How many steps a run takes *)

